(** * Display_EPD_W21_spi.h : pin assignments and SPI control macros

    A shallow embedding of the header that wires a Good Display e-paper
    panel (DESPI-C73 adapter) to an ESP32-C6: four pin numbers, six
    macros that drive a line, one macro that samples the busy line, and
    the prototypes of the two byte-transfer entry points. *)

From Stdlib Require Import NArith Bool List Strings.Byte String Lia.
Import ListNotations.
Local Open Scope N_scope.

(** ** A state monad for straight-line I/O code *)

Module St.

Definition t (S A : Type) : Type := S -> A * S.

Definition ret {S A} (a : A) : t S A := fun s => (a, s).

Definition bind {S A B} (c : t S A) (k : A -> t S B) : t S B :=
  fun s => let (a, s') := c s in k a s'.

(** Value and final state of a computation. *)
Definition eval {S A} (c : t S A) (s : S) : A := fst (c s).
Definition exec {S A} (c : t S A) (s : S) : S := snd (c s).

End St.

Notation "c1 ;; c2" := (St.bind c1 (fun _ => c2))
  (at level 61, right associativity).

(** ** Arduino digital I/O (from <Arduino.h>) *)

Module Arduino.

(** Modelled from the spec: the two logic levels [LOW] and [HIGH] that
    <Arduino.h> provides; the header passes nothing else to
    [digitalWrite]. *)
Inductive level : Set := LOW | HIGH.

(** GPIO numbers. *)
Definition pin : Set := N.

(** The electrical state of the GPIO lines: a bank of levels indexed
    by pin number, kept as a bit vector.  Bit [p] set means line [p]
    is HIGH. *)
Definition pins : Set := N.

Definition level_of_bit (b : bool) : level := if b then HIGH else LOW.

(** The level line [p] has in state [st]. *)
Definition level_at (st : pins) (p : pin) : level :=
  level_of_bit (N.testbit st p).

Definition io : Type -> Type := St.t pins.

(** Modelled from the spec: [void digitalWrite(pin, val)] of
    <Arduino.h>, which drives one line low or high. *)
Definition digitalWrite (p : pin) (val : level) : io unit :=
  fun st =>
    (tt, match val with
         | LOW => N.clearbit st p
         | HIGH => N.setbit st p
         end).

(** Modelled from the spec: [int digitalRead(pin)] of <Arduino.h>,
    which samples the current level of one line. *)
Definition digitalRead (p : pin) : io level :=
  fun st => (level_at st p, st).

End Arduino.

Import Arduino.

(** ** USER-DEFINED PINS (ESP32-C6 + DESPI-C73) *)

Definition EPD_CS_PIN : pin := 7.    (* CS *)
Definition EPD_DC_PIN : pin := 3.    (* D/C *)
Definition EPD_RST_PIN : pin := 0.   (* RES *)
Definition EPD_BUSY_PIN : pin := 1.  (* BUSY *)

(** The logical role each constant stands for. *)
Inductive role : Set := ChipSelect | DataCommand | Reset | BusySense.

Definition pin_of_role (r : role) : pin :=
  match r with
  | ChipSelect => EPD_CS_PIN
  | DataCommand => EPD_DC_PIN
  | Reset => EPD_RST_PIN
  | BusySense => EPD_BUSY_PIN
  end.

(** ** MACROS FOR SPI CONTROL *)

Definition EPD_W21_CS_0 : io unit := digitalWrite EPD_CS_PIN LOW.
Definition EPD_W21_CS_1 : io unit := digitalWrite EPD_CS_PIN HIGH.
Definition EPD_W21_DC_0 : io unit := digitalWrite EPD_DC_PIN LOW.
Definition EPD_W21_DC_1 : io unit := digitalWrite EPD_DC_PIN HIGH.
Definition EPD_W21_RST_0 : io unit := digitalWrite EPD_RST_PIN LOW.
Definition EPD_W21_RST_1 : io unit := digitalWrite EPD_RST_PIN HIGH.
Definition isEPD_W21_BUSY : io level := digitalRead EPD_BUSY_PIN.

(** The six macros that drive a line, by name. *)
Inductive macro : Set := CS_0 | CS_1 | DC_0 | DC_1 | RST_0 | RST_1.

Definition all_macros : list macro := [CS_0; CS_1; DC_0; DC_1; RST_0; RST_1].

Definition drive (m : macro) : io unit :=
  match m with
  | CS_0 => EPD_W21_CS_0
  | CS_1 => EPD_W21_CS_1
  | DC_0 => EPD_W21_DC_0
  | DC_1 => EPD_W21_DC_1
  | RST_0 => EPD_W21_RST_0
  | RST_1 => EPD_W21_RST_1
  end.

(** The line a macro names in its [digitalWrite]. *)
Definition target (m : macro) : pin :=
  match m with
  | CS_0 | CS_1 => EPD_CS_PIN
  | DC_0 | DC_1 => EPD_DC_PIN
  | RST_0 | RST_1 => EPD_RST_PIN
  end.

(** The level a macro names in its [digitalWrite]. *)
Definition driven (m : macro) : level :=
  match m with
  | CS_0 | DC_0 | RST_0 => LOW
  | CS_1 | DC_1 | RST_1 => HIGH
  end.

(** All GPIO operations of the header: the six drivers and the busy
    sample. *)
Inductive operation : Set :=
  | Drive (m : macro)
  | SampleBusy.

Definition all_operations : list operation :=
  map Drive all_macros ++ [SampleBusy].

(** What an operation hands back to its caller: nothing for a driver
    ([digitalWrite] is [void]), a level for the busy sample. *)
Definition result (o : operation) : Set :=
  match o with
  | Drive _ => unit
  | SampleBusy => level
  end.

Definition run (o : operation) : io (result o) :=
  match o with
  | Drive m => drive m
  | SampleBusy => isEPD_W21_BUSY
  end.

Definition op_target (o : operation) : pin :=
  match o with
  | Drive m => target m
  | SampleBusy => EPD_BUSY_PIN
  end.

(** ** SPI FUNCTIONS : the prototypes *)

Module Decl.

(** The C types the two declarations use. *)
Inductive ctype : Set := Void | UnsignedChar.

(** Width in bits of a value of the type ([CHAR_BIT] is 8 on the
    target) and whether it is signed. *)
Definition width (t : ctype) : N :=
  match t with
  | Void => 0
  | UnsignedChar => 8
  end.

Definition signed (t : ctype) : bool := false.

(** What a value of the type is in this development. *)
Definition carrier (t : ctype) : Set :=
  match t with
  | Void => unit
  | UnsignedChar => byte
  end.

Record prototype : Set := {
  returns : ctype;
  name : string;
  params : list (ctype * string)
}.

(** [void EPD_W21_WriteCMD(unsigned char command);] *)
Definition EPD_W21_WriteCMD : prototype :=
  {| returns := Void;
     name := "EPD_W21_WriteCMD";
     params := [(UnsignedChar, "command"%string)] |}.

(** [void EPD_W21_WriteDATA(unsigned char data);] *)
Definition EPD_W21_WriteDATA : prototype :=
  {| returns := Void;
     name := "EPD_W21_WriteDATA";
     params := [(UnsignedChar, "data"%string)] |}.

Definition spi_functions : list prototype :=
  [EPD_W21_WriteCMD; EPD_W21_WriteDATA].

End Decl.

(** ** SPI FUNCTIONS : the bodies

    The header only declares the two functions; their bodies are
    modelled here against a harness that captures, in order, the level
    of every line after each GPIO action and every byte shifted out. *)

Module Transfer.

(** One entry of the capture: the lines as a GPIO action left them,
    or a byte that went over the bus. *)
Inductive sample : Set :=
  | Lines (st : pins)
  | Shifted (value : byte).

(** The board: its GPIO lines and the capture so far, oldest first. *)
Record board : Set := { gpio : pins; capture : list sample }.

Definition dev : Type -> Type := St.t board.

(** A GPIO action carried out on the board. *)
Definition on_gpio (c : io unit) : dev unit :=
  fun w =>
    let st := St.exec c (gpio w) in
    (tt, {| gpio := st; capture := capture w ++ [Lines st] |}).

(** Modelled from the spec: shifting one byte out over the SPI bus,
    which the header leaves to the unseen implementation. *)
Definition SPI_Write (value : byte) : dev unit :=
  fun w =>
    (tt, {| gpio := gpio w; capture := capture w ++ [Shifted value] |}).

(** The two meanings the data/command line can announce. *)
Inductive dc_mode : Set := Command | Data.

Section Bodies.

(** The level of the data/command line that announces each mode; it
    is fixed by the controller's datasheet, not by the header. *)
Variable dc_level : dc_mode -> level.

(** Modelled from the spec: the body of [EPD_W21_WriteCMD], absent
    from the header: assert chip-select, put the data/command line
    in command mode, shift the byte out, deassert chip-select. *)
Definition EPD_W21_WriteCMD (command : byte) : dev unit :=
  on_gpio EPD_W21_CS_0 ;;
  on_gpio (digitalWrite EPD_DC_PIN (dc_level Command)) ;;
  SPI_Write command ;;
  on_gpio EPD_W21_CS_1.

(** Modelled from the spec: the body of [EPD_W21_WriteDATA], absent
    from the header: assert chip-select, put the data/command line
    in data mode, shift the byte out, deassert chip-select. *)
Definition EPD_W21_WriteDATA (data : byte) : dev unit :=
  on_gpio EPD_W21_CS_0 ;;
  on_gpio (digitalWrite EPD_DC_PIN (dc_level Data)) ;;
  SPI_Write data ;;
  on_gpio EPD_W21_CS_1.

End Bodies.

End Transfer.

(** ** Relations between pin states *)

(** [st'] is [st] with line [p] put at level [v] and nothing else
    touched. *)
Definition sets (p : pin) (v : level) (st st' : pins) : Prop :=
  level_at st' p = v /\ forall q, q <> p -> level_at st' q = level_at st q.

(** ** Macros one after the other *)

(** A run of driver macros in the order a caller writes them, as in
    [EPD_W21_RST_0; EPD_W21_RST_1; EPD_W21_CS_0;]. *)
Fixpoint sequence (ms : list macro) : io unit :=
  match ms with
  | [] => St.ret tt
  | m :: rest => drive m ;; sequence rest
  end.

(** The level that the last macro of [ms] naming line [p] drives, if
    any macro of [ms] names [p]. *)
Fixpoint last_driven (p : pin) (ms : list macro) : option level :=
  match ms with
  | [] => None
  | m :: rest =>
      match last_driven p rest with
      | Some v => Some v
      | None => if target m =? p then Some (driven m) else None
      end
  end.

(** The lines the driver macros name. *)
Definition driven_pins : list pin := [EPD_CS_PIN; EPD_DC_PIN; EPD_RST_PIN].


(** * Digital I/O laws *)

Lemma level_of_bit_inj b c : level_of_bit b = level_of_bit c -> b = c.
Proof. destruct b, c; simpl; congruence. Qed.

(** Two pin states with the same level on every line are the same. *)
Lemma pins_ext (a b : pins) :
  (forall p, level_at a p = level_at b p) -> a = b.
Proof.
  intros H. apply N.bits_inj. intros p. apply level_of_bit_inj, H.
Qed.

Lemma digitalWrite_same p v st :
  level_at (St.exec (digitalWrite p v) st) p = v.
Proof.
  unfold level_at, St.exec, digitalWrite; simpl.
  destruct v.
  - rewrite N.clearbit_eq. reflexivity.
  - rewrite N.setbit_eq. reflexivity.
Qed.

Lemma digitalWrite_other p v st q :
  q <> p -> level_at (St.exec (digitalWrite p v) st) q = level_at st q.
Proof.
  intros Hq. unfold level_at, St.exec, digitalWrite; simpl.
  destruct v.
  - rewrite N.clearbit_neq by congruence. reflexivity.
  - rewrite N.setbit_neq by congruence. reflexivity.
Qed.

Lemma digitalWrite_sets p v st : sets p v st (St.exec (digitalWrite p v) st).
Proof.
  split; [apply digitalWrite_same | intros q; apply digitalWrite_other].
Qed.

Lemma digitalWrite_value p v st : St.eval (digitalWrite p v) st = tt.
Proof. reflexivity. Qed.

(** Writing a line twice with the same level is writing it once. *)
Lemma digitalWrite_twice p v st :
  St.exec (digitalWrite p v) (St.exec (digitalWrite p v) st)
  = St.exec (digitalWrite p v) st.
Proof.
  apply pins_ext. intros q. destruct (N.eq_dec q p) as [-> | Hq].
  - rewrite !digitalWrite_same. reflexivity.
  - rewrite !digitalWrite_other by assumption. reflexivity.
Qed.

(** Writes to two different lines can be swapped. *)
Lemma digitalWrite_swap p v q u st :
  p <> q ->
  St.exec (digitalWrite p v) (St.exec (digitalWrite q u) st)
  = St.exec (digitalWrite q u) (St.exec (digitalWrite p v) st).
Proof.
  intros Hpq. apply pins_ext. intros r.
  destruct (N.eq_dec r p) as [-> | Hp].
  - rewrite digitalWrite_same, digitalWrite_other by assumption.
    rewrite digitalWrite_same. reflexivity.
  - rewrite (digitalWrite_other p) by assumption.
    destruct (N.eq_dec r q) as [-> | Hq].
    + rewrite !digitalWrite_same. reflexivity.
    + rewrite !digitalWrite_other by assumption. reflexivity.
Qed.

(** Every driver macro is one [digitalWrite] of its level to its line. *)
Lemma drive_unfold m : drive m = digitalWrite (target m) (driven m).
Proof. destruct m; reflexivity. Qed.

(** Sequencing runs the first action, then the second on what it left. *)
Lemma exec_seq {S A B} (c1 : St.t S A) (c2 : St.t S B) (s : S) :
  St.exec (c1 ;; c2) s = St.exec c2 (St.exec c1 s).
Proof.
  unfold St.exec, St.bind. destruct (c1 s) as [a s']. reflexivity.
Qed.

Lemma drive_sets m st : sets (target m) (driven m) st (St.exec (drive m) st).
Proof. rewrite drive_unfold. apply digitalWrite_sets. Qed.

(** * The pin constants *)

(** C2: the four pin-role constants have the fixed values CS = 7,
    D/C = 3, RST = 0 and BUSY = 1, and each of the four logical roles is
    mapped to exactly one GPIO number, the one of its constant. *)
Theorem pin_constants_values :
  EPD_CS_PIN = 7 /\ EPD_DC_PIN = 3 /\ EPD_RST_PIN = 0 /\ EPD_BUSY_PIN = 1
  /\ pin_of_role ChipSelect = 7 /\ pin_of_role DataCommand = 3
  /\ pin_of_role Reset = 0 /\ pin_of_role BusySense = 1
  /\ forall r : role, exists! p : pin, pin_of_role r = p.
Proof.
  repeat split; try reflexivity.
  intros r. exists (pin_of_role r). split; [reflexivity | auto].
Qed.

(** The constants fit the 8-bit pin parameter of [digitalWrite] and
    [digitalRead], so passing them loses nothing. *)
Lemma pin_constants_fit_uint8 (r : role) : pin_of_role r < 2 ^ 8.
Proof. destruct r; reflexivity. Qed.

(** C8: the four pin constants are pairwise distinct; no driver macro
    names the busy pin, so running any of them leaves the level of the
    busy line, and what the busy sample returns, as it was. *)
Theorem pins_pairwise_distinct :
  (EPD_CS_PIN <> EPD_DC_PIN /\ EPD_CS_PIN <> EPD_RST_PIN
   /\ EPD_CS_PIN <> EPD_BUSY_PIN /\ EPD_DC_PIN <> EPD_RST_PIN
   /\ EPD_DC_PIN <> EPD_BUSY_PIN /\ EPD_RST_PIN <> EPD_BUSY_PIN)
  /\ NoDup [EPD_CS_PIN; EPD_DC_PIN; EPD_RST_PIN; EPD_BUSY_PIN]
  /\ (forall m : macro, target m <> EPD_BUSY_PIN)
  /\ (forall (m : macro) (st : pins),
        level_at (St.exec (drive m) st) EPD_BUSY_PIN
        = level_at st EPD_BUSY_PIN
        /\ St.eval isEPD_W21_BUSY (St.exec (drive m) st)
           = St.eval isEPD_W21_BUSY st).
Proof.
  assert (Hbusy : forall m, target m <> EPD_BUSY_PIN)
    by (intros []; discriminate).
  split; [repeat split; discriminate |].
  split.
  { repeat constructor; simpl; intuition discriminate. }
  split; [exact Hbusy |].
  intros m st.
  assert (Hl : level_at (St.exec (drive m) st) EPD_BUSY_PIN
               = level_at st EPD_BUSY_PIN).
  { apply drive_sets. intros E. apply (Hbusy m). symmetry. exact E. }
  split; [exact Hl | exact Hl].
Qed.

(** * The GPIO control macros *)

(** C1: in each of the three pairs, the [_0] macro leaves its line LOW
    and the [_1] macro leaves the same line HIGH, whatever the pins were
    before. *)
Theorem assert_drives_low_deassert_high (st : pins) :
  (level_at (St.exec EPD_W21_CS_0 st) EPD_CS_PIN = LOW
   /\ level_at (St.exec EPD_W21_CS_1 st) EPD_CS_PIN = HIGH)
  /\ (level_at (St.exec EPD_W21_DC_0 st) EPD_DC_PIN = LOW
      /\ level_at (St.exec EPD_W21_DC_1 st) EPD_DC_PIN = HIGH)
  /\ (level_at (St.exec EPD_W21_RST_0 st) EPD_RST_PIN = LOW
      /\ level_at (St.exec EPD_W21_RST_1 st) EPD_RST_PIN = HIGH).
Proof.
  repeat split; apply digitalWrite_same.
Qed.

(** C3: the busy read returns the level the busy pin has in the current
    state, and hands the state back as it found it: the level of every
    line is what it was. *)
Theorem busy_read_pure (st : pins) :
  isEPD_W21_BUSY st = (level_at st EPD_BUSY_PIN, st)
  /\ St.eval isEPD_W21_BUSY st = level_of_bit (N.testbit st 1)
  /\ St.exec isEPD_W21_BUSY st = st
  /\ forall p : pin, level_at (St.exec isEPD_W21_BUSY st) p = level_at st p.
Proof.
  repeat split; reflexivity.
Qed.

(** C4: each operation of the header (the six drivers and the busy
    read) leaves the level of every line other than its own target
    line as it was. *)
Theorem operation_touches_only_target (o : operation) (st : pins) (p : pin) :
  p <> op_target o ->
  level_at (St.exec (run o) st) p = level_at st p.
Proof.
  intros Hp. destruct o as [m |]; simpl in *.
  - apply drive_sets. exact Hp.
  - reflexivity.
Qed.

Lemma operation_touches_only_target_witness :
  EPD_RST_PIN <> op_target (Drive CS_1)
  /\ level_at (St.exec (run (Drive CS_1)) 9) EPD_RST_PIN = level_at 9 EPD_RST_PIN.
Proof.
  split.
  - discriminate.
  - apply (operation_touches_only_target (Drive CS_1) 9 EPD_RST_PIN).
    discriminate.
Defined.

(** C7: no GPIO operation can fail or report a status.  A driver macro
    returns the unit value and a next pin state, which is the old one
    with the target line at the macro's level; the busy read returns a
    level, LOW or HIGH, which is the level of the busy line. *)
Theorem operations_cannot_fail (st : pins) :
  (forall m : macro,
      result (Drive m) = unit
      /\ exists st' : pins,
           drive m st = (tt, st') /\ sets (target m) (driven m) st st')
  /\ result SampleBusy = level
  /\ exists l : level,
       isEPD_W21_BUSY st = (l, st)
       /\ l = level_at st EPD_BUSY_PIN
       /\ (l = LOW \/ l = HIGH).
Proof.
  split; [| split].
  - intros m. split; [reflexivity |].
    exists (St.exec (drive m) st). split.
    + unfold St.exec. destruct (drive m st) as [[] st']. reflexivity.
    + apply drive_sets.
  - reflexivity.
  - exists (level_at st EPD_BUSY_PIN). repeat split.
    destruct (level_at st EPD_BUSY_PIN); [left | right]; reflexivity.
Qed.

(** C9: every driver macro is idempotent: running it twice in a row
    leaves the same pin state as running it once. *)
Theorem macro_idempotent (m : macro) (st : pins) :
  St.exec (drive m ;; drive m) st = St.exec (drive m) st.
Proof.
  rewrite exec_seq, drive_unfold. apply digitalWrite_twice.
Qed.

(** C10: two driver macros with different target lines commute: either
    order leaves the same pin state. *)
Theorem macros_commute (a b : macro) (st : pins) :
  target a <> target b ->
  St.exec (drive a ;; drive b) st = St.exec (drive b ;; drive a) st.
Proof.
  intros Hab. rewrite !exec_seq, !drive_unfold.
  apply digitalWrite_swap. congruence.
Qed.

Lemma macros_commute_witness :
  target CS_0 <> target DC_1
  /\ St.exec (EPD_W21_CS_0 ;; EPD_W21_DC_1) 128
     = St.exec (EPD_W21_DC_1 ;; EPD_W21_CS_0) 128.
Proof.
  split.
  - discriminate.
  - apply (macros_commute CS_0 DC_1 128). discriminate.
Defined.

(** Concrete runs: with only CS high (128), asserting CS clears the
    bank; with CS and D/C high (136), it leaves D/C (8) alone. *)
Example EPD_W21_CS_0_run : St.exec EPD_W21_CS_0 128 = 0.
Proof. reflexivity. Qed.

Example EPD_W21_CS_0_keeps_DC : St.exec EPD_W21_CS_0 136 = 8.
Proof. reflexivity. Qed.

Example EPD_W21_RST_1_run : St.exec EPD_W21_RST_1 0 = 1.
Proof. reflexivity. Qed.

Example isEPD_W21_BUSY_run :
  isEPD_W21_BUSY 2 = (HIGH, 2) /\ isEPD_W21_BUSY 1 = (LOW, 1).
Proof. split; reflexivity. Qed.

(** * The byte-transfer functions *)

(** C6: each of the two declared functions has exactly one parameter,
    of type unsigned char (8 bits wide, not signed, so its values are
    0..255), and returns void. *)
Theorem spi_functions_signature :
  Forall (fun f : Decl.prototype =>
            map fst (Decl.params f) = [Decl.UnsignedChar]
            /\ List.length (Decl.params f) = 1%nat
            /\ Decl.returns f = Decl.Void)
         Decl.spi_functions
  /\ Decl.spi_functions = [Decl.EPD_W21_WriteCMD; Decl.EPD_W21_WriteDATA]
  /\ Decl.width Decl.UnsignedChar = 8
  /\ Decl.signed Decl.UnsignedChar = false
  /\ (forall v : Decl.carrier Decl.UnsignedChar, Byte.to_N v < 2 ^ 8)
  /\ Decl.carrier Decl.Void = unit.
Proof.
  split; [repeat constructor |].
  repeat split.
  intros v. pose proof (Byte.to_N_bounded v). simpl in *. lia.
Qed.

Import Transfer.

Lemma on_gpio_exec c w :
  St.exec (on_gpio c) w
  = {| gpio := St.exec c (gpio w);
       capture := capture w ++ [Lines (St.exec c (gpio w))] |}.
Proof. reflexivity. Qed.

Lemma SPI_Write_exec b w :
  St.exec (SPI_Write b) w
  = {| gpio := gpio w; capture := capture w ++ [Shifted b] |}.
Proof. reflexivity. Qed.

(** One transfer with the data/command line put at level [v]: what it
    adds to the capture and where it leaves the lines. *)
Lemma transfer_steps (v : level) (b : byte) (w : board) :
  exists s1 s2 s3 : pins,
    St.exec (on_gpio EPD_W21_CS_0 ;;
             on_gpio (digitalWrite EPD_DC_PIN v) ;;
             SPI_Write b ;;
             on_gpio EPD_W21_CS_1) w
    = {| gpio := s3;
         capture := capture w ++ [Lines s1; Lines s2; Shifted b; Lines s3] |}
    /\ sets EPD_CS_PIN LOW (gpio w) s1
    /\ sets EPD_DC_PIN v s1 s2
    /\ sets EPD_CS_PIN HIGH s2 s3.
Proof.
  exists (St.exec EPD_W21_CS_0 (gpio w)).
  exists (St.exec (digitalWrite EPD_DC_PIN v) (St.exec EPD_W21_CS_0 (gpio w))).
  exists (St.exec EPD_W21_CS_1
            (St.exec (digitalWrite EPD_DC_PIN v)
               (St.exec EPD_W21_CS_0 (gpio w)))).
  split.
  - rewrite !exec_seq, !on_gpio_exec, SPI_Write_exec. cbn [gpio capture].
    rewrite <- !app_assoc. reflexivity.
  - repeat split; try apply digitalWrite_same;
      intros q Hq; apply digitalWrite_other; exact Hq.
Qed.

(** C5: for every byte, [EPD_W21_WriteCMD] and [EPD_W21_WriteDATA] add
    to the capture, in this order: the lines with chip-select LOW and
    nothing else changed; the lines with the data/command line at the
    level of the call's mode (command, resp. data) and nothing else
    changed, so chip-select still LOW; the byte itself; the lines with
    chip-select HIGH and nothing else changed.  Both return no value. *)
Theorem write_cmd_data_sequence
    (dc_level : dc_mode -> level) (value : byte) (w : board) :
  (exists s1 s2 s3 : pins,
      EPD_W21_WriteCMD dc_level value w
      = (tt, {| gpio := s3;
                capture := capture w
                             ++ [Lines s1; Lines s2; Shifted value; Lines s3] |})
      /\ sets EPD_CS_PIN LOW (gpio w) s1
      /\ sets EPD_DC_PIN (dc_level Command) s1 s2
      /\ level_at s2 EPD_CS_PIN = LOW
      /\ sets EPD_CS_PIN HIGH s2 s3)
  /\ (exists s1 s2 s3 : pins,
         EPD_W21_WriteDATA dc_level value w
         = (tt, {| gpio := s3;
                   capture := capture w
                                ++ [Lines s1; Lines s2; Shifted value; Lines s3] |})
         /\ sets EPD_CS_PIN LOW (gpio w) s1
         /\ sets EPD_DC_PIN (dc_level Data) s1 s2
         /\ level_at s2 EPD_CS_PIN = LOW
         /\ sets EPD_CS_PIN HIGH s2 s3).
Proof.
  split.
  - destruct (transfer_steps (dc_level Command) value w)
      as (s1 & s2 & s3 & Hrun & H1 & H2 & H3).
    exists s1, s2, s3. repeat split; try apply H1; try apply H2; try apply H3.
    + unfold EPD_W21_WriteCMD. unfold St.exec in Hrun.
      destruct (St.bind _ _ w) as [[] w']. simpl in Hrun. congruence.
    + destruct H2 as [_ H2]. rewrite H2 by discriminate. apply H1.
  - destruct (transfer_steps (dc_level Data) value w)
      as (s1 & s2 & s3 & Hrun & H1 & H2 & H3).
    exists s1, s2, s3. repeat split; try apply H1; try apply H2; try apply H3.
    + unfold EPD_W21_WriteDATA. unfold St.exec in Hrun.
      destruct (St.bind _ _ w) as [[] w']. simpl in Hrun. congruence.
    + destruct H2 as [_ H2]. rewrite H2 by discriminate. apply H1.
Qed.

(** A concrete command transfer of byte 0x12 with all lines low at the
    start and the usual convention (command LOW, data HIGH): chip-select
    is line 7, so it ends at 128. *)
Example EPD_W21_WriteCMD_run :
  EPD_W21_WriteCMD (fun m => match m with Command => LOW | Data => HIGH end)
    x12 {| gpio := 0; capture := [] |}
  = (tt, {| gpio := 128;
            capture := [Lines 0; Lines 0; Shifted x12; Lines 128] |}).
Proof. reflexivity. Qed.

Example EPD_W21_WriteDATA_run :
  EPD_W21_WriteDATA (fun m => match m with Command => LOW | Data => HIGH end)
    xff {| gpio := 128; capture := [] |}
  = (tt, {| gpio := 136;
            capture := [Lines 0; Lines 8; Shifted xff; Lines 136] |}).
Proof. reflexivity. Qed.

(** * Macros in sequence *)

Lemma sequence_cons m ms st :
  St.exec (sequence (m :: ms)) st = St.exec (sequence ms) (St.exec (drive m) st).
Proof. simpl. apply exec_seq. Qed.

(** A later write to a line replaces an earlier one. *)
Lemma digitalWrite_overwrite p u v st :
  St.exec (digitalWrite p v) (St.exec (digitalWrite p u) st)
  = St.exec (digitalWrite p v) st.
Proof.
  apply pins_ext. intros q. destruct (N.eq_dec q p) as [-> | Hq].
  - rewrite !digitalWrite_same. reflexivity.
  - rewrite !digitalWrite_other by assumption. reflexivity.
Qed.

(** A macro is known by its line and its level. *)
Lemma macro_determined a b :
  target a = target b -> driven a = driven b -> a = b.
Proof. destruct a, b; simpl; intros Ht Hd; congruence || discriminate. Qed.

Lemma target_driven_pin m : In (target m) driven_pins.
Proof. destruct m; simpl; auto. Qed.

(** A line no macro names keeps its level through any run of macros. *)
Lemma sequence_frame ms st p :
  ~ In p driven_pins ->
  level_at (St.exec (sequence ms) st) p = level_at st p.
Proof.
  intros Hp. revert st. induction ms as [| m ms IH]; intros st.
  - reflexivity.
  - rewrite sequence_cons, IH. apply drive_sets.
    intros ->. apply Hp, target_driven_pin.
Qed.

(** X1: when two driver macros name the same line, running one and then
    the other leaves the pin state the second one alone leaves: the
    later write wins. *)
Theorem later_macro_wins (a b : macro) (st : pins) :
  target a = target b ->
  St.exec (drive a ;; drive b) st = St.exec (drive b) st.
Proof.
  intros Hab. rewrite exec_seq, !drive_unfold, Hab.
  apply digitalWrite_overwrite.
Qed.

Lemma later_macro_wins_witness :
  target CS_0 = target CS_1
  /\ St.exec (EPD_W21_CS_0 ;; EPD_W21_CS_1) 9 = St.exec EPD_W21_CS_1 9.
Proof.
  split.
  - reflexivity.
  - apply (later_macro_wins CS_0 CS_1 9). reflexivity.
Defined.

(** X2: a driver macro leaves the pin state exactly as it was if and
    only if its line already had the level the macro drives. *)
Theorem macro_noop_iff (m : macro) (st : pins) :
  St.exec (drive m) st = st <-> level_at st (target m) = driven m.
Proof.
  split.
  - intros H. rewrite <- H at 1. apply drive_sets.
  - intros H. apply pins_ext. intros q.
    destruct (N.eq_dec q (target m)) as [-> | Hq].
    + rewrite H. apply drive_sets.
    + apply drive_sets. exact Hq.
Qed.

(** X3: two driver macros commute exactly when they name different
    lines or are the same macro; a [_0] and the [_1] of the same line
    never give the same pin state in both orders. *)
Theorem macros_commute_iff (a b : macro) (st : pins) :
  St.exec (drive a ;; drive b) st = St.exec (drive b ;; drive a) st
  <-> (target a <> target b \/ a = b).
Proof.
  split.
  - intros H. destruct (N.eq_dec (target a) (target b)) as [E | NE].
    + right. apply macro_determined; [exact E |].
      apply (f_equal (fun s => level_at s (target b))) in H.
      rewrite !exec_seq in H.
      rewrite (proj1 (drive_sets b _)) in H.
      rewrite <- E in H at 1.
      rewrite (proj1 (drive_sets a _)) in H.
      symmetry. exact H.
    + left. exact NE.
  - intros [NE | ->].
    + rewrite !exec_seq, !drive_unfold. apply digitalWrite_swap. congruence.
    + reflexivity.
Qed.

(** X4: after any run of driver macros, each line has the level driven
    by the last macro of the run that names it, and its old level when
    no macro of the run names it. *)
Theorem sequence_last_write (ms : list macro) (st : pins) (p : pin) :
  level_at (St.exec (sequence ms) st) p
  = match last_driven p ms with
    | Some v => v
    | None => level_at st p
    end.
Proof.
  revert st. induction ms as [| m ms IH]; intros st.
  - reflexivity.
  - rewrite sequence_cons, IH. simpl.
    destruct (last_driven p ms) as [v |]; [reflexivity |].
    destruct (N.eqb_spec (target m) p) as [<- | NE].
    + apply drive_sets.
    + apply drive_sets. congruence.
Qed.


(** X6: no run of driver macros, however long, changes what the busy
    read returns: the busy line is only ever sampled. *)
Theorem busy_read_after_sequence (ms : list macro) (st : pins) :
  St.eval isEPD_W21_BUSY (St.exec (sequence ms) st)
  = St.eval isEPD_W21_BUSY st.
Proof.
  unfold St.eval, isEPD_W21_BUSY, digitalRead; simpl.
  apply sequence_frame. simpl. intuition discriminate.
Qed.

(** A reset pulse followed by asserting chip-select, from all lines
    high on the low byte (255): RST ends high, CS low. *)
Example sequence_run :
  St.exec (sequence [RST_0; RST_1; CS_0]) 255 = 127
  /\ last_driven EPD_RST_PIN [RST_0; RST_1; CS_0] = Some HIGH
  /\ last_driven EPD_BUSY_PIN [RST_0; RST_1; CS_0] = None.
Proof. repeat split. Qed.
